(** * The aggregation pipeline of [streamlit_app.py]

    The dashboard reads one CSV file into a pandas [DataFrame], rewrites two
    of its columns and then derives seven small tables, one per chart.  This
    file embeds the frame as a list of rows and every pandas operation the
    script calls as a function on such lists, and proves the properties of
    the derived tables.

    Conventions of the embedding.
    - A cell that pandas shows as [NaN] (an empty CSV cell, a key that a
      [map] does not know, a value outside the categories of a
      [Categorical], the mean of no sample) is [None].
    - The numeric columns are [float64] in the source; here they are exact
      rationals, and an aggregate is stored in lowest terms ([Qred]) so that a
      number has one representation, as a float has.
    - The script runs with pandas 2.x, where [groupby] has [observed=False]
      unless told otherwise: a categorical key contributes every category to
      the result, observed or not.  The script itself relies on this: it
      passes [observed=True] for the bar chart and filters [count > 0] for
      the polar chart. *)

From Stdlib Require Import QArith Qreduction Lqa.
From stdpp Require Import gmap strings list sorting.

Local Open Scope string_scope.
Local Open Scope list_scope.

(** ** The data frame *)

Record row := Row {
  activity_type : option string;
  gender : option string;
  intensity : option string;
  age_category : option string;
  duration_minutes : option Q;
  calories_burned : option Q
}.

Abbreviation DataFrame := (list row).

(** ** pandas operations used by the script *)

Module pd.

(** [Series.map(d)] with a dict [d]: a value that is not a key of [d]
    becomes [NaN], and so does a missing value. *)
Definition Series_map {V : Type} (d : gmap string V) (v : option string)
  : option V :=
  s ← v; d !! s.

(** [pd.Categorical(values, categories=cats)]: a value outside [cats]
    becomes [NaN]. *)
Definition Categorical (cats : list string) (v : option string)
  : option string :=
  s ← v; if decide (s ∈ cats) then Some s else None.

(** The code of a categorical value: its position among the categories.
    Only asked for values that [Categorical] has kept. *)
Fixpoint code (cats : list string) (s : string) : nat :=
  match cats with
  | [] => 0
  | c :: cats' => if decide (s = c) then 0 else S (code cats' s)
  end.

(** [sort_values]: the rows are inserted one by one, from the last to the
    first, each before the first row that does not precede it.  [le x y]
    says that [x] may stand before [y].  pandas leaves the order of rows
    with equal keys to the sorting routine; here they keep their order, and
    the theorems on sorted tables state what holds for every such order. *)
Section sort_values.
Context {A : Type} (le : A → A → bool).

Fixpoint sort_insert (x : A) (l : list A) : list A :=
  match l with
  | [] => [x]
  | y :: l' => if le x y then x :: y :: l' else y :: sort_insert x l'
  end.

Definition sort_values (l : list A) : list A := foldr sort_insert [] l.
End sort_values.

(** Orders on keys.  Missing keys go last ([na_position='last']). *)
Definition na_last {K : Type} (le : K → K → bool) (a b : option K) : bool :=
  match a, b with
  | Some x, Some y => le x y
  | Some _, None => true
  | None, Some _ => false
  | None, None => true
  end.

Definition nat_descending (a b : nat) : bool := bool_decide (b ≤ a)%nat.
Definition nat_ascending (a b : nat) : bool := bool_decide (a ≤ b)%nat.
Definition Q_descending (a b : Q) : bool := Qle_bool b a.

(** [Series.unique()]: the distinct values in order of first occurrence. *)
Fixpoint unique (l : list string) : list string :=
  match l with
  | [] => []
  | x :: l' => x :: filter (λ y, y ≠ x) (unique l')
  end.

(** The group keys of a string column under [groupby(sort=True)]: its
    distinct present values in increasing order. *)
Definition group_keys (col : list (option string)) : list string :=
  sort_values String.leb (unique (omap id col)).

(** [mean] skips missing values; the mean of no value is missing. *)
Definition Qsum (xs : list Q) : Q := foldr Qplus 0%Q xs.

Definition mean (col : list (option Q)) : option Q :=
  match omap id col with
  | [] => None
  | x :: xs => Some (Qred (Qsum (x :: xs) / inject_Z (Z.of_nat (length (x :: xs)))))
  end.

(** [enumerate(l)] *)
Definition enumerate {A : Type} (l : list A) : list (nat * A) := imap pair l.

(** [Series.value_counts()] of a categorical column: one count per category,
    unobserved categories with count 0, missing values not counted, the
    counts in descending order. *)
Definition value_counts (cats : list string) (col : list (option string))
  : list (string * nat) :=
  sort_values (λ a b, nat_descending a.2 b.2)
    ((λ c, (c, length (filter (λ v, v = Some c) col))) <$> cats).

(** [DataFrame.empty] *)
Definition empty {A : Type} (t : list A) : bool :=
  match t with [] => true | _ :: _ => false end.

End pd.

(** ** The loader (lines 12-41) *)

(** The dict of line 19. *)
Definition gender_dict : gmap string string :=
  <["F" := "Female"]> (<["M" := "Male"]> ∅).

(** [load_data], applied to the frame that [pd.read_csv] returns. *)
Definition load_data (csv : DataFrame) : DataFrame :=
  (λ r, Row (activity_type r) (pd.Series_map gender_dict (gender r))
            (intensity r) (age_category r)
            (duration_minutes r) (calories_burned r)) <$> csv.

Definition activity_order : list string :=
  [ "Running"; "Cycling"; "Swimming"; "Yoga"; "Walking"; "HIIT"; "Dancing";
    "Weight Training"; "Tennis"; "Basketball" ].

(** The global [df] after line 41: the loaded frame with [activity_type]
    turned into an ordered categorical. *)
Definition df (csv : DataFrame) : DataFrame :=
  (λ r, Row (pd.Categorical activity_order (activity_type r)) (gender r)
            (intensity r) (age_category r)
            (duration_minutes r) (calories_burned r)) <$> load_data csv.

(** ** The aggregation pipeline (lines 84-315) *)

(** Step 1, lines 88-92: [value_counts] of the categorical column, then the
    rows with a positive frequency. *)
Definition activity_frequency (t : DataFrame) : list (string * nat) :=
  filter (λ p, 0 < p.2)%nat
    (pd.value_counts activity_order (activity_type <$> t)).

(** Step 2, lines 119-121: [groupby(["activity_type", "gender"]).size()].
    The second assignment to the variable [activity_frequency]. *)
Definition activity_frequency_by_gender (t : DataFrame)
  : list (string * string * nat) :=
  a ← activity_order;
  g ← pd.group_keys (gender <$> t);
  [(a, g, length (filter (λ r, activity_type r = Some a ∧ gender r = Some g) t))].

(** Step 3, lines 153-164: the two means per observed activity, sorted by
    the mean of calories, rows with a missing cell dropped. *)
Record stats_row := StatsRow {
  st_activity_type : string;
  avg_calories_burned : option Q;
  avg_duration : option Q
}.

(** [groupby("activity_type", observed=True)]: the categories that occur, in
    category order. *)
Definition activity_stats (t : DataFrame) : list stats_row :=
  (λ a, let g := filter (λ r, activity_type r = Some a) t in
        StatsRow a (pd.mean (calories_burned <$> g))
                   (pd.mean (duration_minutes <$> g)))
  <$> filter (λ a, Some a ∈ activity_type <$> t) activity_order.

(** [sort_values("avg_calories_burned", ascending=False).dropna()] *)
Definition top_activities (t : DataFrame) : list stats_row :=
  filter (λ s, is_Some (avg_calories_burned s) ∧ is_Some (avg_duration s))
    (pd.sort_values
       (λ x y, pd.na_last pd.Q_descending
                 (avg_calories_burned x) (avg_calories_burned y))
       (activity_stats t)).

(** Step 4, lines 181-185: [groupby(["activity_type", "intensity"]).size()],
    then the rows with a positive count; [astype(str)] leaves the intensity
    strings as they are. *)
Definition activity_summary (t : DataFrame) : list (string * string * nat) :=
  filter (λ p, 0 < p.2)%nat
    (a ← activity_order;
     i ← pd.group_keys (intensity <$> t);
     [(a, i, length (filter (λ r, activity_type r = Some a ∧ intensity r = Some i) t))]).

(** Step 5, lines 230-249: the rows of one gender sorted by the code of
    their activity; the chart is drawn unless the selection is empty. *)
Definition by_activity_type (x y : row) : bool :=
  pd.na_last pd.nat_ascending
    (pd.code activity_order <$> activity_type x)
    (pd.code activity_order <$> activity_type y).

Definition filtered_df (t : DataFrame) (g : string) : DataFrame :=
  pd.sort_values by_activity_type (filter (λ r, gender r = Some g) t).

Inductive scatter_view :=
  | warning            (* [st.warning("No data matches your selection...")] *)
  | scatter (rows : DataFrame).

Definition scatter_plot (t : DataFrame) (g : string) : scatter_view :=
  if pd.empty (filtered_df t g) then warning else scatter (filtered_df t g).

(** Step 6, lines 258-270: the rows of one intensity, grouped by
    [activity_type] and [gender] with the mean of [calories_burned]; a
    category without rows for a gender has a missing mean. *)
Definition filtered_sankey_data (t : DataFrame) (level : string) : DataFrame :=
  filter (λ r, intensity r = Some level) t.

Record sankey_row := SankeyRow {
  sk_activity_type : string;
  sk_gender : string;
  sk_calories_burned : option Q
}.

Definition sankey_data (t : DataFrame) (level : string) : list sankey_row :=
  let f := filtered_sankey_data t level in
  a ← activity_order;
  g ← pd.group_keys (gender <$> f);
  [SankeyRow a g
     (pd.mean (calories_burned <$>
        filter (λ r, activity_type r = Some a ∧ gender r = Some g) f))].

Definition activity_labels (sd : list sankey_row) : list string :=
  pd.unique (sk_activity_type <$> sd).

Definition gender_labels (sd : list sankey_row) : list string :=
  pd.unique (sk_gender <$> sd).

Definition all_labels (sd : list sankey_row) : list string :=
  activity_labels sd ++ gender_labels sd.

(** [{label: i for i, label in enumerate(all_labels)}]: the entries are
    written from left to right, a later one replaces an earlier one with the
    same label. *)
Definition label_indices (labels : list string) : gmap string nat :=
  foldl (λ m il, <[il.2 := il.1]> m) ∅ (pd.enumerate labels).

Record link := Link {
  source_index : option nat;
  target_index : option nat;
  value : option Q
}.

(** The three arrays handed to [go.Sankey(link=...)], row by row. *)
Definition sankey_links (sd : list sankey_row) : list link :=
  let d := label_indices (all_labels sd) in
  (λ r, Link (pd.Series_map d (Some (sk_activity_type r)))
             (pd.Series_map d (Some (sk_gender r)))
             (sk_calories_burned r)) <$> sd.

(** Step 7, lines 308-315: as step 6, grouped by [age_category] and
    [activity_type]. *)
Definition age_activity_stats (t : DataFrame) (level : string)
  : list (string * string * option Q) :=
  let f := filter (λ r, intensity r = Some level) t in
  c ← pd.group_keys (age_category <$> f);
  a ← activity_order;
  [(c, a, pd.mean (calories_burned <$>
             filter (λ r, age_category r = Some c ∧ activity_type r = Some a) f))].

(** ** The table of section 8 of the specification *)

Definition example_table (c1 c2 c3 : option string) : DataFrame :=
  [ Row (Some "Running") (Some "Male") (Some "High") c1 (Some 30%Q) (Some 300%Q);
    Row (Some "Running") (Some "Female") (Some "High") c2 (Some 25%Q) (Some 260%Q);
    Row (Some "Yoga") (Some "Female") (Some "Low") c3 (Some 40%Q) (Some 150%Q) ].

(** A table whose most frequent activity is not the first category. *)
Definition yoga_first_table : DataFrame :=
  [ Row (Some "Yoga") (Some "Male") (Some "Low") None (Some 40%Q) (Some 150%Q);
    Row (Some "Running") (Some "Male") (Some "High") None (Some 30%Q) (Some 300%Q);
    Row (Some "Yoga") (Some "Female") (Some "Low") None (Some 45%Q) (Some 160%Q) ].

(** The CSV rows that load as [example_table]. *)
Definition example_csv (c1 c2 c3 : option string) : DataFrame :=
  [ Row (Some "Running") (Some "M") (Some "High") c1 (Some 30%Q) (Some 300%Q);
    Row (Some "Running") (Some "F") (Some "High") c2 (Some 25%Q) (Some 260%Q);
    Row (Some "Yoga") (Some "F") (Some "Low") c3 (Some 40%Q) (Some 150%Q) ].

(** A CSV row whose gender is spelled in a third way. *)
Definition other_csv : DataFrame :=
  [ Row (Some "Running") (Some "Other") (Some "Low") None (Some 30%Q) (Some 300%Q) ].

(** The gender values that occur in a frame; a missing cell holds no value. *)
Definition gender_values (t : DataFrame) : gset string :=
  list_to_set (omap gender t).

(** Two activities with the same mean of calories. *)
Definition tie_table : DataFrame :=
  [ Row (Some "Running") (Some "Male") (Some "High") None (Some 30%Q) (Some 300%Q);
    Row (Some "Yoga") (Some "Female") (Some "Low") None (Some 40%Q) (Some 300%Q) ].

(** Orders between two rows of step 3, both with a mean of calories: the
    first mean is at least, or more than, the second. *)
Definition calories_ge (x y : stats_row) : Prop :=
  match avg_calories_burned x, avg_calories_burned y with
  | Some a, Some b => (b <= a)%Q
  | _, _ => False
  end.

Definition calories_gt (x y : stats_row) : Prop :=
  match avg_calories_burned x, avg_calories_burned y with
  | Some a, Some b => (b < a)%Q
  | _, _ => False
  end.

(** The order of the categorical [activity_type] between two rows of the
    frame: the order of the ten categories, a row without activity after
    all others. *)
Definition activity_type_le (x y : row) : Prop :=
  match activity_type x, activity_type y with
  | Some a, Some b => (pd.code activity_order a ≤ pd.code activity_order b)%nat
  | Some _, None => True
  | None, Some _ => False
  | None, None => True
  end.

(** * Properties *)

(** ** Sorting *)

Section sort_facts.
Context {A : Type} (le : A → A → bool).

Lemma sort_insert_Permutation x l : pd.sort_insert le x l ≡ₚ x :: l.
Proof.
  induction l as [|y l IH]; simpl; [done|].
  destruct (le x y); [done|].
  rewrite IH. apply Permutation_swap.
Qed.

Lemma sort_values_Permutation l : pd.sort_values le l ≡ₚ l.
Proof.
  induction l as [|x l IH]; simpl; [done|].
  by rewrite sort_insert_Permutation, IH.
Qed.

Lemma elem_of_sort_values x l : x ∈ pd.sort_values le l ↔ x ∈ l.
Proof. by rewrite sort_values_Permutation. Qed.

Hypothesis le_total : ∀ x y, le x y ∨ le y x.

Lemma sort_insert_HdRel x y l :
  le y x → HdRel le y l → HdRel le y (pd.sort_insert le x l).
Proof.
  intros Hyx Hl. destruct l as [|z l]; simpl; [by constructor|].
  inversion_clear Hl. destruct (le x z); by constructor.
Qed.

Lemma sort_insert_Sorted x l :
  Sorted le l → Sorted le (pd.sort_insert le x l).
Proof.
  induction 1 as [|y l Hl IH Hy]; simpl.
  - by repeat constructor.
  - destruct (le x y) eqn:Hxy.
    + constructor; [by constructor|]. constructor. by rewrite Hxy.
    + constructor; [done|]. apply sort_insert_HdRel; [|done].
      destruct (le_total x y) as [H|H]; [|done]. by rewrite Hxy in H.
Qed.

Lemma sort_values_Sorted l : Sorted le (pd.sort_values le l).
Proof.
  induction l as [|x l IH]; simpl; [constructor|].
  by apply sort_insert_Sorted.
Qed.

Hypothesis le_trans : ∀ x y z, le x y → le y z → le x z.

Lemma sort_values_StronglySorted l : StronglySorted le (pd.sort_values le l).
Proof.
  apply Sorted_StronglySorted; [|apply sort_values_Sorted].
  intros x y z. apply le_trans.
Qed.

End sort_facts.

Lemma StronglySorted_filter {A : Type} (R : relation A) (P : A → Prop)
    `{!∀ x, Decision (P x)} (l : list A) :
  StronglySorted R l → StronglySorted R (filter P l).
Proof.
  induction 1 as [|x l Hl IH Hx]; [constructor|].
  rewrite filter_cons. destruct (decide (P x)); [|done].
  constructor; [done|].
  apply Forall_forall. intros y [_ Hy]%list_elem_of_filter.
  by eapply Forall_forall in Hx.
Qed.

Lemma StronglySorted_impl {A : Type} (R1 R2 : relation A) (l : list A) :
  (∀ x y, x ∈ l → y ∈ l → R1 x y → R2 x y) →
  StronglySorted R1 l → StronglySorted R2 l.
Proof.
  intros HR Hl. induction Hl as [|x l Hl IH Hx]; [constructor|].
  constructor.
  - apply IH. intros y z Hy Hz. apply HR; by right.
  - apply Forall_forall. intros y Hy. apply HR; [by left|by right|].
    by eapply Forall_forall in Hx.
Qed.

Lemma Sorted_weaken {A : Type} (R1 R2 : relation A) (l : list A) :
  (∀ x y, R1 x y → R2 x y) → Sorted R1 l → Sorted R2 l.
Proof.
  intros HR. induction 1 as [|x l Hl IH Hx]; constructor; [done|].
  destruct Hx; constructor. by apply HR.
Qed.

(** ** Step 1: activity frequency *)

Lemma nat_descending_total (a b : nat) :
  pd.nat_descending a b ∨ pd.nat_descending b a.
Proof.
  unfold pd.nat_descending. rewrite !bool_decide_spec. lia.
Qed.

Lemma nat_descending_trans (a b c : nat) :
  pd.nat_descending a b → pd.nat_descending b c → pd.nat_descending a c.
Proof.
  unfold pd.nat_descending. rewrite !bool_decide_spec. lia.
Qed.

Lemma value_counts_descending cats col :
  StronglySorted (λ p q : string * nat, q.2 ≤ p.2)%nat (pd.value_counts cats col).
Proof.
  unfold pd.value_counts.
  eapply StronglySorted_impl; last first.
  - apply sort_values_StronglySorted.
    + intros x y. apply nat_descending_total.
    + intros x y z. apply nat_descending_trans.
  - intros x y _ _. unfold pd.nat_descending. by rewrite bool_decide_spec.
Qed.

(** C7. The table of step 1 has no row whose frequency is 0, whatever the
    base table is. *)
Theorem activity_frequency_positive (t : DataFrame) :
  Forall (λ p : string * nat, p.2 ≠ 0%nat) (activity_frequency t).
Proof.
  apply Forall_forall. intros p [Hp _]%list_elem_of_filter. lia.
Qed.

(** C10. The rows of step 1 stand in descending order of frequency (each
    frequency is at most the one before it), and this is not the order of
    the ten categories: in [yoga_first_table] Yoga, the fourth category,
    comes before Running, the first. *)
Theorem activity_frequency_descending :
  (∀ t : DataFrame,
     Sorted (λ p q : string * nat, q.2 ≤ p.2)%nat (activity_frequency t)) ∧
  activity_frequency yoga_first_table = [("Yoga", 2%nat); ("Running", 1%nat)].
Proof.
  split; [|by vm_compute].
  intros t. apply StronglySorted_Sorted, StronglySorted_filter.
  apply value_counts_descending.
Qed.

(** C9. The three rows of the example, loaded from their CSV form with any
    age categories, give [(Running, 2), (Yoga, 1)] in step 1 and
    [(Running, 280, 27.5), (Yoga, 150, 40)] in step 3, Running first. *)
Theorem example_table_steps_1_and_3 (c1 c2 c3 : option string) :
  df (example_csv c1 c2 c3) = example_table c1 c2 c3 ∧
  activity_frequency (example_table c1 c2 c3)
    = [("Running", 2%nat); ("Yoga", 1%nat)] ∧
  top_activities (example_table c1 c2 c3)
    = [ StatsRow "Running" (Some 280%Q) (Some (55 # 2)%Q);
        StatsRow "Yoga" (Some 150%Q) (Some 40%Q) ].
Proof. by vm_compute. Qed.

(** ** The loader *)

Lemma gender_dict_lookup (s : string) :
  gender_dict !! s =
    if decide (s = "F") then Some "Female"
    else if decide (s = "M") then Some "Male" else None.
Proof.
  unfold gender_dict. rewrite !lookup_insert, lookup_empty.
  repeat case_decide; congruence.
Qed.

Lemma load_data_gender_cases (v : option string) :
  pd.Series_map gender_dict v = None ∨
  pd.Series_map gender_dict v = Some "Male" ∨
  pd.Series_map gender_dict v = Some "Female".
Proof.
  destruct v as [s|]; simpl; [|by left].
  rewrite gender_dict_lookup. repeat case_decide; auto.
Qed.

Lemma elem_of_gender_values (g : string) (t : DataFrame) :
  g ∈ gender_values t ↔ ∃ r, r ∈ t ∧ gender r = Some g.
Proof.
  unfold gender_values. rewrite elem_of_list_to_set, list_elem_of_omap.
  done.
Qed.

(** C2, as the script has it. [load_data] turns the gender "F" into "Female"
    and "M" into "Male"; every other gender, and a missing one, becomes a
    missing value.  The rows keep their number and order. *)
Theorem load_data_gender (csv : DataFrame) :
  gender <$> load_data csv =
    (λ r, g ← gender r;
          if decide (g = "F") then Some "Female"
          else if decide (g = "M") then Some "Male" else None) <$> csv.
Proof.
  unfold load_data. rewrite <- list_fmap_compose.
  apply list_fmap_ext. intros _ r _. simpl.
  destruct (gender r) as [g|]; simpl; [|done].
  apply gender_dict_lookup.
Qed.

(** C2, as the specification has it, fails: the gender "Other" does not pass
    through, the loaded row has no gender. *)
Lemma load_data_other_gender_lost :
  gender <$> other_csv = [Some "Other"] ∧
  gender <$> load_data other_csv = [None] ∧
  gender <$> load_data other_csv ≠ gender <$> other_csv.
Proof. by vm_compute. Qed.

(** C8. In every loaded table, and in the global [df] made from it, the
    gender values that occur are among "Male" and "Female". *)
Theorem loaded_gender_values (csv : DataFrame) :
  gender_values (load_data csv) ⊆ {[ "Male"; "Female" ]} ∧
  gender_values (df csv) ⊆ {[ "Male"; "Female" ]}.
Proof.
  assert (gender_values (load_data csv) ⊆ {[ "Male"; "Female" ]}) as Hload.
  { intros g (r & Hr & Hg)%elem_of_gender_values.
    unfold load_data in Hr. apply list_elem_of_fmap in Hr as (r0 & -> & _).
    simpl in Hg.
    destruct (load_data_gender_cases (gender r0)) as [H|[H|H]];
      rewrite H in Hg; simplify_eq; set_solver. }
  split; [done|].
  intros g (r & Hr & Hg)%elem_of_gender_values.
  unfold df in Hr. apply list_elem_of_fmap in Hr as (r0 & -> & Hr0).
  simpl in Hg. apply Hload, elem_of_gender_values. eauto.
Qed.

(** ** Group keys *)

Lemma elem_of_unique (x : string) (l : list string) : x ∈ pd.unique l ↔ x ∈ l.
Proof.
  induction l as [|y l IH]; simpl; [done|].
  rewrite !elem_of_cons, list_elem_of_filter, IH.
  destruct (decide (x = y)); tauto.
Qed.

(** [unique] is the scan from left to right that keeps a value the first
    time it is met. *)
Lemma unique_snoc (l : list string) (x : string) :
  pd.unique (l ++ [x]) = if decide (x ∈ l) then pd.unique l else pd.unique l ++ [x].
Proof.
  induction l as [|y l IH].
  - destruct (decide (x ∈ [])) as [Hin|_]; [by apply elem_of_nil in Hin|done].
  - cbn [pd.unique app]. rewrite IH.
    destruct (decide (x ∈ l)) as [Hin|Hnin], (decide (x ∈ y :: l)) as [Hin'|Hnin'].
    + done.
    + destruct Hnin'. by right.
    + apply elem_of_cons in Hin' as [->|?]; [|done].
      rewrite filter_app, filter_cons, filter_nil.
      case_decide; first [by rewrite app_nil_r|congruence].
    + assert (x ≠ y) by (intros ->; apply Hnin'; by left).
      rewrite filter_app, filter_cons, filter_nil.
      case_decide; first [done|congruence].
Qed.

Lemma NoDup_unique (l : list string) : NoDup (pd.unique l).
Proof.
  induction l as [|y l IH]; simpl; constructor.
  - rewrite list_elem_of_filter. tauto.
  - by apply NoDup_filter.
Qed.

Lemma elem_of_group_keys (g : string) (col : list (option string)) :
  g ∈ pd.group_keys col ↔ Some g ∈ col.
Proof.
  unfold pd.group_keys.
  rewrite elem_of_sort_values, elem_of_unique. split.
  - intros (v & Hv & Hid)%list_elem_of_omap. simpl in Hid. by subst.
  - intros Hg. apply list_elem_of_omap. eauto.
Qed.

Lemma group_keys_gender (g : string) (t : DataFrame) :
  g ∈ pd.group_keys (gender <$> t) ↔ g ∈ gender_values t.
Proof.
  rewrite elem_of_group_keys, elem_of_gender_values, list_elem_of_fmap.
  split; intros (r & ? & ?); eauto.
Qed.

(** ** Step 2: frequency by gender *)

(** C3, as the script has it. Step 2 has a row for an activity and a gender
    exactly when the activity is one of the ten categories and the gender
    occurs somewhere in the base table; its frequency is the number of rows
    with that activity and that gender, which is 0 when there is none. *)
Theorem activity_frequency_by_gender_rows
    (t : DataFrame) (a g : string) (n : nat) :
  (a, g, n) ∈ activity_frequency_by_gender t ↔
    a ∈ activity_order ∧ g ∈ gender_values t ∧
    n = length (filter (λ r, activity_type r = Some a ∧ gender r = Some g) t).
Proof.
  unfold activity_frequency_by_gender. rewrite list_elem_of_bind. split.
  - intros (a' & (g' & Hin & Hg)%list_elem_of_bind & Ha).
    apply list_elem_of_singleton in Hin. simplify_eq.
    by rewrite <- group_keys_gender.
  - intros (Ha & Hg & ->). exists a. split; [|done].
    apply list_elem_of_bind. exists g. split; [by left|].
    by apply group_keys_gender.
Qed.

(** C3, as the specification has it, fails: in the example table no row is
    a Yoga session of a man, and step 2 has the row (Yoga, Male, 0). *)
Lemma activity_frequency_by_gender_zero_row :
  filter (λ r, activity_type r = Some "Yoga" ∧ gender r = Some "Male")
    (example_table None None None) = [] ∧
  ("Yoga", "Male", 0%nat)
    ∈ activity_frequency_by_gender (example_table None None None).
Proof.
  split; [by vm_compute|].
  apply activity_frequency_by_gender_rows. split_and!.
  - unfold activity_order. set_solver.
  - apply elem_of_gender_values. eexists. split; [by left|done].
  - by vm_compute.
Qed.

(** ** Step 3: average calories and duration *)

Lemma Q_descending_total (a b : option Q) :
  pd.na_last pd.Q_descending a b ∨ pd.na_last pd.Q_descending b a.
Proof.
  destruct a as [x|], b as [y|]; simpl; [|by left|by right|by left].
  unfold pd.Q_descending. rewrite !Is_true_true, !Qle_bool_iff.
  destruct (Qlt_le_dec x y); [right|left]; auto using Qlt_le_weak.
Qed.

Lemma Q_descending_trans (a b c : option Q) :
  pd.na_last pd.Q_descending a b → pd.na_last pd.Q_descending b c →
  pd.na_last pd.Q_descending a c.
Proof.
  destruct a as [x|], b as [y|], c as [z|]; simpl; try done.
  unfold pd.Q_descending. rewrite !Is_true_true, !Qle_bool_iff.
  intros ??. by apply Qle_trans with y.
Qed.

(** C4, as the script has it. The rows of step 3 stand in descending order
    of [avg_calories_burned], each mean at most the one before it, and every
    row has both of its means. *)
Theorem top_activities_descending (t : DataFrame) :
  Sorted calories_ge (top_activities t) ∧
  Forall (λ s, is_Some (avg_calories_burned s) ∧ is_Some (avg_duration s))
    (top_activities t).
Proof.
  assert (Forall (λ s, is_Some (avg_calories_burned s) ∧ is_Some (avg_duration s))
            (top_activities t)) as Hdef.
  { apply Forall_forall. by intros s [? _]%list_elem_of_filter. }
  split; [|done].
  apply StronglySorted_Sorted.
  eapply StronglySorted_impl; last first.
  - apply StronglySorted_filter, sort_values_StronglySorted.
    + intros x y. apply Q_descending_total.
    + intros x y z. apply Q_descending_trans.
  - intros x y Hx Hy. rewrite Forall_forall in Hdef.
    destruct (Hdef x Hx) as [[a Ha] _], (Hdef y Hy) as [[b Hb] _].
    unfold calories_ge, pd.Q_descending. rewrite Ha, Hb. simpl.
    by rewrite Is_true_true, Qle_bool_iff.
Qed.

(** C4, as the specification has it, fails: Running and Yoga both burn 300
    calories on average in [tie_table], step 3 keeps both rows, and the
    second mean is not less than the first. *)
Lemma top_activities_tie :
  top_activities tie_table
    = [ StatsRow "Running" (Some 300%Q) (Some 30%Q);
        StatsRow "Yoga" (Some 300%Q) (Some 40%Q) ] ∧
  ¬ Sorted calories_gt (top_activities tie_table).
Proof.
  assert (top_activities tie_table
    = [ StatsRow "Running" (Some 300%Q) (Some 30%Q);
        StatsRow "Yoga" (Some 300%Q) (Some 40%Q) ]) as -> by by vm_compute.
  split; [done|].
  intros Hs. inversion_clear Hs as [|?? _ Hhd].
  inversion_clear Hhd as [|?? Hlt].
  by apply Qlt_irrefl in Hlt.
Qed.

(** ** Step 5: the scatter selection *)

Lemma by_activity_type_total (x y : row) :
  by_activity_type x y ∨ by_activity_type y x.
Proof.
  unfold by_activity_type, pd.nat_ascending.
  destruct (activity_type x), (activity_type y); simpl;
    rewrite ?bool_decide_spec; auto; lia.
Qed.

Lemma by_activity_type_le (x y : row) :
  by_activity_type x y ↔ activity_type_le x y.
Proof.
  unfold by_activity_type, activity_type_le, pd.nat_ascending.
  destruct (activity_type x), (activity_type y); simpl;
    rewrite ?bool_decide_spec; tauto.
Qed.

Lemma filtered_df_Permutation (t : DataFrame) (g : string) :
  filtered_df t g ≡ₚ filter (λ r, gender r = Some g) t.
Proof. apply sort_values_Permutation. Qed.

Lemma filtered_df_Sorted (t : DataFrame) (g : string) :
  Sorted activity_type_le (filtered_df t g).
Proof.
  eapply Sorted_weaken; last first.
  - apply sort_values_Sorted. apply by_activity_type_total.
  - intros x y. apply by_activity_type_le.
Qed.

(** C6. When no row has the chosen gender, step 5 gives the warning and no
    table. Otherwise it gives a table, which is not empty, holds exactly the
    rows with that gender, each as often and as it is in the base table, and
    is sorted by [activity_type]. *)
Theorem scatter_plot_selection (t : DataFrame) (g : string) :
  (filter (λ r, gender r = Some g) t = [] → scatter_plot t g = warning) ∧
  (filter (λ r, gender r = Some g) t ≠ [] →
     ∃ rows, scatter_plot t g = scatter rows ∧ rows ≠ [] ∧
             rows ≡ₚ filter (λ r, gender r = Some g) t ∧
             Sorted activity_type_le rows).
Proof.
  pose proof (filtered_df_Permutation t g) as Hperm.
  unfold scatter_plot. split.
  - intros Hsel. rewrite Hsel in Hperm.
    apply Permutation_nil_r in Hperm. by rewrite Hperm.
  - intros Hsel. exists (filtered_df t g).
    assert (filtered_df t g ≠ []) as Hne.
    { intros Hnil. rewrite Hnil in Hperm. by apply Permutation_nil_l in Hperm. }
    split_and!; [|done|done|apply filtered_df_Sorted].
    by destruct (filtered_df t g).
Qed.

Lemma scatter_plot_selection_witness :
  scatter_plot (df other_csv) "Male" = warning ∧
  ∃ rows, scatter_plot (example_table None None None) "Female" = scatter rows ∧
          rows ≠ [] ∧
          rows ≡ₚ filter (λ r, gender r = Some "Female")
                    (example_table None None None) ∧
          Sorted activity_type_le rows.
Proof.
  split.
  - apply (proj1 (scatter_plot_selection (df other_csv) "Male")).
    by vm_compute.
  - apply (proj2 (scatter_plot_selection (example_table None None None) "Female")).
    by vm_compute.
Defined.

(** ** Empty selections *)

Lemma filter_none {A : Type} (P : A → Prop) `{!∀ x, Decision (P x)}
    (l : list A) :
  Forall (λ x, ¬ P x) l → filter P l = [].
Proof.
  induction 1 as [|x l Hx _ IH]; [done|].
  rewrite filter_cons. by destruct (decide (P x)).
Qed.

(** C5. A step whose grouping receives no row gives the empty table, and a
    step always gives a table: steps 1 to 4 on a base table without rows,
    step 5 for a gender that no row has, steps 6 and 7 (and the links of
    step 6) for an intensity that no row has. *)
Theorem no_rows_empty_summary :
  activity_frequency [] = [] ∧
  activity_frequency_by_gender [] = [] ∧
  top_activities [] = [] ∧
  activity_summary [] = [] ∧
  (∀ (t : DataFrame) (g : string),
     Forall (λ r, gender r ≠ Some g) t → filtered_df t g = []) ∧
  (∀ (t : DataFrame) (level : string),
     Forall (λ r, intensity r ≠ Some level) t →
     sankey_data t level = [] ∧
     sankey_links (sankey_data t level) = [] ∧
     age_activity_stats t level = []).
Proof.
  split_and!; try by vm_compute.
  - intros t g Hg. unfold filtered_df. by rewrite filter_none.
  - intros t level Hl.
    assert (sankey_data t level = []) as Hsd.
    { unfold sankey_data, filtered_sankey_data. by rewrite filter_none. }
    split_and!; [done|by rewrite Hsd|].
    unfold age_activity_stats. by rewrite filter_none.
Qed.

Lemma no_rows_empty_summary_witness :
  filtered_df (df other_csv) "Male" = [] ∧
  sankey_data (example_table None None None) "Medium" = [] ∧
  sankey_links (sankey_data (example_table None None None) "Medium") = [] ∧
  age_activity_stats (example_table None None None) "Medium" = [].
Proof.
  destruct no_rows_empty_summary as (_ & _ & _ & _ & Hgender & Hintensity).
  split.
  - apply Hgender. by repeat constructor.
  - apply Hintensity. by repeat constructor.
Defined.

(** ** Step 6: labels and link indices *)

Lemma enumerate_snoc {A : Type} (l : list A) (x : A) :
  pd.enumerate (l ++ [x]) = pd.enumerate l ++ [(length l, x)].
Proof.
  unfold pd.enumerate. rewrite imap_app. simpl. by rewrite Nat.add_0_r.
Qed.

Lemma label_indices_snoc (l : list string) (x : string) :
  label_indices (l ++ [x]) = <[x := length l]> (label_indices l).
Proof. unfold label_indices. by rewrite enumerate_snoc, foldl_snoc. Qed.

(** A label that occurs once is mapped to its position. *)
Lemma label_indices_lookup (l : list string) (i : nat) (x : string) :
  NoDup l → l !! i = Some x → label_indices l !! x = Some i.
Proof.
  revert i x. induction l as [|y l IH] using rev_ind; intros i x Hnd Hi; [done|].
  rewrite label_indices_snoc.
  apply NoDup_app in Hnd as (Hnd & Hdis & _).
  destruct (decide (i < length l)%nat) as [Hlt|Hge].
  - rewrite lookup_app_l in Hi by done.
    rewrite lookup_insert_ne; [by apply IH|].
    intros ->. eapply Hdis; [by eapply list_elem_of_lookup_2|by left].
  - rewrite lookup_app_r in Hi by lia.
    destruct (i - length l)%nat eqn:E; simpl in Hi; [|done].
    simplify_eq. replace i with (length l) by lia. apply lookup_insert_eq.
Qed.

Lemma label_indices_seq (l : list string) :
  NoDup l → (label_indices l !!.) <$> l = Some <$> seq 0 (length l).
Proof.
  intros Hnd. apply list_eq. intros i. rewrite !list_lookup_fmap.
  destruct (l !! i) as [x|] eqn:Hi; simpl.
  - erewrite label_indices_lookup by done.
    rewrite lookup_seq_lt; [done|]. by eapply lookup_lt_Some.
  - rewrite lookup_seq_ge; [done|]. by apply lookup_ge_None.
Qed.

Lemma label_indices_app (l1 l2 : list string) :
  NoDup (l1 ++ l2) →
  (label_indices (l1 ++ l2) !!.) <$> l1 = Some <$> seq 0 (length l1) ∧
  (label_indices (l1 ++ l2) !!.) <$> l2 = Some <$> seq (length l1) (length l2).
Proof.
  intros Hnd. apply label_indices_seq in Hnd.
  rewrite length_app, seq_app, !fmap_app in Hnd.
  apply app_inj_1 in Hnd; [done|]. by rewrite !length_fmap, length_seq.
Qed.

Lemma elem_of_sankey_data (t : DataFrame) (level : string) (r : sankey_row) :
  r ∈ sankey_data t level →
  sk_activity_type r ∈ activity_order ∧ sk_gender r ∈ gender_values t.
Proof.
  unfold sankey_data.
  intros (a & (g & Hr & Hg)%list_elem_of_bind & Ha)%list_elem_of_bind.
  apply list_elem_of_singleton in Hr as ->. simpl. split; [done|].
  apply group_keys_gender, elem_of_gender_values in Hg as (r & Hr & Hg).
  apply list_elem_of_filter in Hr as [_ Hr].
  apply elem_of_gender_values. eauto.
Qed.

Lemma gender_not_activity (g : string) :
  g ∈ ({[ "Male"; "Female" ]} : gset string) → g ∉ activity_order.
Proof.
  intros [->%elem_of_singleton | ->%elem_of_singleton]%elem_of_union Hin;
    unfold activity_order in Hin;
    repeat (apply elem_of_cons in Hin as [Hin|Hin]; [discriminate|]);
    by apply elem_of_nil in Hin.
Qed.

Lemma all_labels_NoDup (csv : DataFrame) (level : string) :
  NoDup (all_labels (sankey_data (df csv) level)).
Proof.
  apply NoDup_app. split_and!; [apply NoDup_unique| |apply NoDup_unique].
  intros x Ha Hg. unfold activity_labels, gender_labels in *.
  apply elem_of_unique, list_elem_of_fmap in Ha as (ra & -> & Hra).
  apply elem_of_unique, list_elem_of_fmap in Hg as (rg & Heq & Hrg).
  apply elem_of_sankey_data in Hra as [Hact _].
  apply elem_of_sankey_data in Hrg as [_ Hgen].
  apply (proj2 (loaded_gender_values csv)) in Hgen.
  rewrite <- Heq in Hgen. by apply gender_not_activity in Hgen.
Qed.

(** C1. In step 6, on the frame [df] of any CSV and for any intensity: the
    activity labels and the gender labels, each the distinct values of its
    column of the grouped summary in order of first occurrence, are N and M
    labels without repetition; the index of the i-th activity label is i,
    the index of the j-th gender label is N + j; and every link has a source
    index below N and a target index from N to below N + M. *)
Theorem sankey_label_indices (csv : DataFrame) (level : string) :
  let sd := sankey_data (df csv) level in
  let N := length (activity_labels sd) in
  let M := length (gender_labels sd) in
  activity_labels sd = pd.unique (sk_activity_type <$> sd) ∧
  gender_labels sd = pd.unique (sk_gender <$> sd) ∧
  NoDup (activity_labels sd) ∧ NoDup (gender_labels sd) ∧
  (label_indices (all_labels sd) !!.) <$> activity_labels sd
    = Some <$> seq 0 N ∧
  (label_indices (all_labels sd) !!.) <$> gender_labels sd
    = Some <$> seq N M ∧
  Forall (λ l, ∃ s d, source_index l = Some s ∧ target_index l = Some d ∧
                      (s < N)%nat ∧ (N ≤ d < N + M)%nat)
    (sankey_links sd).
Proof.
  intros sd N M.
  pose proof (all_labels_NoDup csv level) as Hnd. fold sd in Hnd.
  destruct (label_indices_app _ _ Hnd) as [Hact Hgen].
  fold (all_labels sd) in Hact, Hgen. fold N in Hact, Hgen. fold M in Hgen.
  split_and!; [done|done|apply NoDup_unique|apply NoDup_unique|done|done|].
  apply Forall_forall. intros l (r & -> & Hr)%list_elem_of_fmap. simpl.
  assert (sk_activity_type r ∈ activity_labels sd) as Ha.
  { apply elem_of_unique, list_elem_of_fmap. eauto. }
  assert (sk_gender r ∈ gender_labels sd) as Hg.
  { apply elem_of_unique, list_elem_of_fmap. eauto. }
  apply list_elem_of_lookup in Ha as [i Hi], Hg as [j Hj].
  exists i, (N + j)%nat.
  pose proof (lookup_lt_Some _ _ _ Hi). pose proof (lookup_lt_Some _ _ _ Hj).
  split_and!; [| |done|lia|unfold M; lia].
  - apply label_indices_lookup; [done|].
    unfold all_labels. by rewrite lookup_app_l.
  - apply label_indices_lookup; [done|].
    unfold all_labels. rewrite lookup_app_r by (unfold N; lia).
    by replace (N + j - length (activity_labels sd))%nat with j by (unfold N; lia).
Qed.

(** * Further properties of the script *)

#[local] Arguments activity_order : simpl never.

(** ** Lists and counts *)

Lemma filter_fmap {A B : Type} (f : A → B) (P : B → Prop)
    `{!∀ y, Decision (P y)} (l : list A) :
  filter P (f <$> l) = f <$> filter (λ x, P (f x)) l.
Proof.
  induction l as [|x l IH]; [done|].
  rewrite fmap_cons, !filter_cons, IH. by destruct (decide (P (f x))).
Qed.

Lemma filter_all {A : Type} (P : A → Prop) `{!∀ x, Decision (P x)}
    (l : list A) :
  Forall P l → filter P l = l.
Proof.
  induction 1 as [|x l Hx _ IH]; [done|].
  by rewrite filter_cons_True, IH.
Qed.

Lemma length_filter_or {A : Type} (P Q : A → Prop)
    `{!∀ x, Decision (P x), !∀ x, Decision (Q x)} (l : list A) :
  (∀ x, P x → Q x → False) →
  length (filter (λ x, P x ∨ Q x) l)
    = (length (filter P l) + length (filter Q l))%nat.
Proof.
  intros Hdis. induction l as [|x l IH]; [done|].
  rewrite !filter_cons.
  destruct (decide (P x)) as [HP|HP], (decide (Q x)) as [HQ|HQ].
  - destruct (Hdis x HP HQ).
  - rewrite decide_True by by left. simpl. by rewrite IH.
  - rewrite decide_True by by right. simpl. rewrite IH. lia.
  - rewrite decide_False by by intros [?|?]. done.
Qed.

(** The counts of distinct keys add up to the rows that have one of them. *)
Lemma sum_counts {A : Type} (f : A → option string) (ks : list string)
    (t : list A) :
  NoDup ks →
  sum_list_with (λ k, length (filter (λ r, f r = Some k) t)) ks
    = length (filter (λ r, f r ∈ Some <$> ks) t).
Proof.
  induction 1 as [|k ks Hk _ IH]; simpl.
  - symmetry. apply length_zero_iff_nil, filter_none.
    apply Forall_forall. intros r _ Hin. by apply elem_of_nil in Hin.
  - rewrite IH, <- length_filter_or.
    + f_equal. apply list_filter_iff. intros r.
      rewrite elem_of_cons. split; intros [?|?]; auto.
    + intros r Hr (k' & Hk' & Hin)%list_elem_of_fmap. congruence.
Qed.

Lemma activity_order_NoDup : NoDup activity_order.
Proof. refine (bool_decide_unpack (NoDup activity_order) _). by vm_compute. Qed.

Lemma Categorical_Some (cats : list string) (v : option string) (a : string) :
  pd.Categorical cats v = Some a ↔ v = Some a ∧ a ∈ cats.
Proof.
  destruct v as [s|]; simpl.
  - case_decide as Hin; split.
    + by intros [= ->].
    + by intros [[= ->] _].
    + done.
    + by intros [[= ->] ?].
  - split; [done|]. by intros [? _].
Qed.

(** ** Step 1, without the claims *)

Lemma value_counts_Permutation (cats : list string) (col : list (option string)) :
  pd.value_counts cats col
    ≡ₚ (λ c, (c, length (filter (λ v, v = Some c) col))) <$> cats.
Proof. apply sort_values_Permutation. Qed.

Lemma elem_of_activity_frequency (t : DataFrame) (a : string) (n : nat) :
  (a, n) ∈ activity_frequency t ↔
    a ∈ activity_order ∧
    n = length (filter (λ r, activity_type r = Some a) t) ∧ (0 < n)%nat.
Proof.
  unfold activity_frequency.
  rewrite list_elem_of_filter, value_counts_Permutation, list_elem_of_fmap.
  simpl. split.
  - intros (Hn & c & [= -> ->] & Hc). split_and!; [done| |done].
    by rewrite filter_fmap, length_fmap.
  - intros (Ha & -> & Hn). split; [done|]. exists a. split; [|done].
    by rewrite filter_fmap, length_fmap.
Qed.

Lemma activity_frequency_fst (t : DataFrame) :
  (activity_frequency t).*1
    ≡ₚ filter (λ a, Some a ∈ activity_type <$> t) activity_order.
Proof.
  unfold activity_frequency. rewrite value_counts_Permutation.
  rewrite filter_fmap, <- list_fmap_compose. simpl.
  rewrite list_fmap_id.
  erewrite list_filter_iff; [done|]. intros a. simpl.
  rewrite <- Nat.neq_0_lt_0, length_zero_iff_nil. split.
  - intros Hne. destruct (filter _ _) as [|v l] eqn:Hf; [done|].
    assert (v ∈ filter (λ v, v = Some a) (activity_type <$> t)) as Hv
      by (rewrite Hf; by left).
    by apply list_elem_of_filter in Hv as [-> ?].
  - intros Hin Hnil. by apply (filter_nil_not_elem_of _ _ (Some a)) in Hnil.
Qed.

(** X1. Step 1 has exactly one row for every category that some row of the
    table has, and none for the others; the frequency of the row is the
    number of rows of the table with that activity. *)
Theorem activity_frequency_rows (t : DataFrame) :
  NoDup (activity_frequency t).*1 ∧
  ∀ a n, (a, n) ∈ activity_frequency t ↔
    a ∈ activity_order ∧
    n = length (filter (λ r, activity_type r = Some a) t) ∧ (0 < n)%nat.
Proof.
  split; [|intros a n; apply elem_of_activity_frequency].
  rewrite activity_frequency_fst.
  apply NoDup_filter, activity_order_NoDup.
Qed.

Lemma sum_positive (l : list (string * nat)) :
  sum_list_with snd (filter (λ p, 0 < p.2)%nat l) = sum_list_with snd l.
Proof.
  induction l as [|[a n] l IH]; [done|].
  rewrite filter_cons. simpl. destruct (decide (0 < n)%nat); simpl; lia.
Qed.

Lemma sum_list_with_fmap {A B : Type} (f : B → nat) (g : A → B) (l : list A) :
  sum_list_with f (g <$> l) = sum_list_with (λ x, f (g x)) l.
Proof.
  induction l as [|x l IH]; [done|].
  rewrite fmap_cons. simpl. f_equal. exact IH.
Qed.

Lemma sum_list_with_ext {A : Type} (f g : A → nat) (l : list A) :
  (∀ x, f x = g x) → sum_list_with f l = sum_list_with g l.
Proof. intros Hfg. induction l as [|x l IH]; simpl; [done|]. by rewrite Hfg, IH. Qed.

Lemma df_activity_type (csv : DataFrame) :
  activity_type <$> df csv
    = (λ r, pd.Categorical activity_order (activity_type r)) <$> csv.
Proof. unfold df, load_data. by rewrite <- !list_fmap_compose. Qed.

(** X2. The frequencies of step 1 add up to the number of CSV rows whose
    activity is one of the ten categories: a row with another activity, or
    with none, is counted nowhere. *)
Theorem activity_frequency_total (csv : DataFrame) :
  sum_list_with snd (activity_frequency (df csv))
    = length (filter (λ r, activity_type r ∈ Some <$> activity_order) csv).
Proof.
  unfold activity_frequency. rewrite sum_positive, value_counts_Permutation.
  rewrite sum_list_with_fmap.
  transitivity (sum_list_with
    (λ k, length (filter (λ r, activity_type r = Some k) (df csv)))
    activity_order).
  { apply sum_list_with_ext. intros c. simpl.
    by rewrite filter_fmap, length_fmap. }
  rewrite sum_counts by apply activity_order_NoDup.
  unfold df, load_data.
  rewrite filter_fmap, length_fmap, filter_fmap, length_fmap.
  f_equal. apply list_filter_iff. intros r. cbn [activity_type].
  rewrite !list_elem_of_fmap. split.
  - intros (a & Ha & Hin).
    apply Categorical_Some in Ha as [-> _]. eauto.
  - intros (a & -> & Hin). exists a. split; [|done].
    by apply Categorical_Some.
Qed.

(** X3. Step 1 does not depend on the order of the rows: two tables with the
    same rows in another order give the same table of frequencies. *)
Theorem activity_frequency_row_order (t t' : DataFrame) :
  t ≡ₚ t' → activity_frequency t = activity_frequency t'.
Proof.
  intros Hperm. unfold activity_frequency, pd.value_counts. do 2 f_equal.
  apply list_fmap_ext. intros _ c _. f_equal. by rewrite Hperm.
Qed.

Lemma activity_frequency_row_order_witness :
  activity_frequency (example_table None None None)
    = activity_frequency (reverse (example_table None None None)).
Proof.
  apply activity_frequency_row_order.
  apply Permutation_sym, reverse_Permutation.
Defined.

(** ** The loader, without the claims *)

Lemma Categorical_cases (cats : list string) (v : option string) :
  pd.Categorical cats v = if decide (v ∈ Some <$> cats) then v else None.
Proof.
  destruct v as [a|]; simpl.
  - destruct (decide (a ∈ cats)) as [Hin|Hnin].
    + rewrite decide_True; [done|]. by apply list_elem_of_fmap_2.
    + rewrite decide_False; [done|].
      by intros (a' & [= <-] & ?)%list_elem_of_fmap.
  - by case_decide.
Qed.

(** X4. In the global [df] every activity is missing or one of the ten
    categories, a CSV activity is kept exactly when it is one of the ten, and
    converting the column again changes nothing. *)
Theorem df_activity_type_categories (csv : DataFrame) :
  Forall (λ v, v ∈ None :: (Some <$> activity_order)) (activity_type <$> df csv) ∧
  activity_type <$> df csv
    = (λ r, if decide (activity_type r ∈ Some <$> activity_order)
            then activity_type r else None) <$> csv ∧
  pd.Categorical activity_order <$> (activity_type <$> df csv)
    = activity_type <$> df csv.
Proof.
  rewrite df_activity_type. split_and!.
  - apply Forall_fmap, Forall_forall. intros r _. unfold compose.
    rewrite Categorical_cases. case_decide; [by right|by left].
  - apply list_fmap_ext. intros _ r _. apply Categorical_cases.
  - rewrite <- list_fmap_compose. apply list_fmap_ext. intros _ r _.
    unfold compose. rewrite !Categorical_cases.
    destruct (decide (activity_type r ∈ Some <$> activity_order)) as [Hin|Hnin].
    + by rewrite decide_True.
    + by case_decide.
Qed.

Lemma df_gender (csv : DataFrame) :
  gender <$> df csv = (λ r, pd.Series_map gender_dict (gender r)) <$> csv.
Proof. unfold df, load_data. by rewrite <- !list_fmap_compose. Qed.

Lemma group_keys_none (col : list (option string)) :
  Forall (λ v, v = None) col → pd.group_keys col = [].
Proof.
  intros Hcol. unfold pd.group_keys.
  replace (omap id col) with (@nil string); [done|].
  induction Hcol as [|v col -> _ IH]; simpl; done.
Qed.

(** X5. A CSV in which no gender is spelled "F" or "M" (for one, a file that
    already says "Female" and "Male") loads without any gender: step 2 and
    step 6 are empty and step 5 gives the warning for every choice. *)
Theorem no_letter_code_no_gender (csv : DataFrame) :
  Forall (λ r, gender r ≠ Some "F" ∧ gender r ≠ Some "M") csv →
  gender_values (df csv) = ∅ ∧
  activity_frequency_by_gender (df csv) = [] ∧
  (∀ g, scatter_plot (df csv) g = warning) ∧
  (∀ level, sankey_data (df csv) level = []).
Proof.
  intros Hcsv.
  assert (Forall (λ v, v = None) (gender <$> df csv)) as Hnone.
  { rewrite df_gender. apply Forall_fmap.
    eapply Forall_impl; [exact Hcsv|]. intros r [HF HM]. simpl.
    destruct (gender r) as [s|]; simpl; [|done].
    rewrite gender_dict_lookup. repeat case_decide; congruence. }
  split_and!.
  - apply set_eq. intros g. rewrite elem_of_gender_values. split.
    + intros (r & Hr & Hg). rewrite Forall_fmap, Forall_forall in Hnone.
      specialize (Hnone r Hr). simpl in Hnone. congruence.
    + by intros ?%not_elem_of_empty.
  - unfold activity_frequency_by_gender. by rewrite group_keys_none.
  - intros g. unfold scatter_plot, filtered_df. rewrite filter_none; [done|].
    rewrite Forall_fmap in Hnone. eapply Forall_impl; [exact Hnone|].
    simpl. intros r Hr. congruence.
  - intros level. unfold sankey_data, filtered_sankey_data.
    rewrite group_keys_none; [done|].
    rewrite Forall_fmap in Hnone |- *.
    apply Forall_forall. intros r [_ Hr]%list_elem_of_filter.
    rewrite Forall_forall in Hnone. by apply Hnone.
Qed.

Lemma no_letter_code_no_gender_witness :
  gender_values (df other_csv) = ∅ ∧
  activity_frequency_by_gender (df other_csv) = [] ∧
  (∀ g, scatter_plot (df other_csv) g = warning) ∧
  (∀ level, sankey_data (df other_csv) level = []).
Proof.
  apply no_letter_code_no_gender. by repeat constructor.
Defined.

(** X6. The table that step 5 draws for "Male" has as many rows as the CSV
    has rows with the gender "M", and the table for "Female" as many as the
    CSV has rows with "F"; so the warning shows exactly when there is none. *)
Theorem scatter_rows_by_letter (csv : DataFrame) :
  length (filtered_df (df csv) "Male")
    = length (filter (λ r, gender r = Some "M") csv) ∧
  length (filtered_df (df csv) "Female")
    = length (filter (λ r, gender r = Some "F") csv) ∧
  (scatter_plot (df csv) "Male" = warning
     ↔ filter (λ r, gender r = Some "M") csv = []) ∧
  (scatter_plot (df csv) "Female" = warning
     ↔ filter (λ r, gender r = Some "F") csv = []).
Proof.
  assert (∀ g s, gender_dict !! s = Some g →
                 (∀ s', gender_dict !! s' = Some g → s' = s) →
            length (filtered_df (df csv) g)
              = length (filter (λ r, gender r = Some s) csv)) as Hlen.
  { intros g s Hs Hinj. unfold filtered_df.
    rewrite sort_values_Permutation. unfold df, load_data.
    rewrite filter_fmap, length_fmap, filter_fmap, length_fmap.
    f_equal. apply list_filter_iff. intros r. cbn [gender].
    destruct (gender r) as [s'|]; simpl; [|done]. split.
    - by intros ->%Hinj.
    - by intros [= ->]. }
  assert (∀ g, scatter_plot (df csv) g = warning
               ↔ length (filtered_df (df csv) g) = 0%nat) as Hwarn.
  { intros g. unfold scatter_plot.
    destruct (filtered_df (df csv) g); simpl; split; done. }
  assert (length (filtered_df (df csv) "Male")
            = length (filter (λ r, gender r = Some "M") csv)) as HM.
  { apply Hlen; [done|]. intros s'. rewrite gender_dict_lookup.
    repeat case_decide; congruence. }
  assert (length (filtered_df (df csv) "Female")
            = length (filter (λ r, gender r = Some "F") csv)) as HF.
  { apply Hlen; [done|]. intros s'. rewrite gender_dict_lookup.
    repeat case_decide; congruence. }
  split_and!; [done|done| |].
  - by rewrite Hwarn, HM, length_zero_iff_nil.
  - by rewrite Hwarn, HF, length_zero_iff_nil.
Qed.

(** ** Grouping by two keys *)

Lemma length_product {A B C : Type} (f : A → B → C) (l1 : list A) (l2 : list B) :
  length (a ← l1; b ← l2; [f a b]) = (length l1 * length l2)%nat.
Proof.
  assert (∀ a, length (b ← l2; [f a b]) = length l2) as Hin.
  { intros a. induction l2 as [|b l2 IH]; [done|].
    rewrite bind_cons. simpl. by rewrite IH. }
  induction l1 as [|a l1 IH]; [done|].
  rewrite bind_cons, length_app, IH, Hin. simpl. done.
Qed.

Lemma sum_list_with_bind {A B : Type} (f : B → nat) (g : A → list B)
    (l : list A) :
  sum_list_with f (l ≫= g) = sum_list_with (λ a, sum_list_with f (g a)) l.
Proof.
  induction l as [|a l IH]; [done|].
  rewrite bind_cons, sum_list_with_app, IH. done.
Qed.

Lemma filter_ext_in {A : Type} (P Q : A → Prop)
    `{!∀ x, Decision (P x), !∀ x, Decision (Q x)} (l : list A) :
  (∀ x, x ∈ l → P x ↔ Q x) → filter P l = filter Q l.
Proof.
  intros HPQ. induction l as [|x l IH]; [done|].
  rewrite !filter_cons, IH by (intros y Hy; apply HPQ; by right).
  destruct (decide (P x)) as [HP|HP], (decide (Q x)) as [HQ|HQ]; try done.
  - destruct HQ. apply HPQ; [by left|done].
  - destruct HP. apply HPQ; [by left|done].
Qed.

Lemma group_keys_NoDup (col : list (option string)) : NoDup (pd.group_keys col).
Proof.
  unfold pd.group_keys. rewrite sort_values_Permutation. apply NoDup_unique.
Qed.

Lemma length_group_keys_gender (t : DataFrame) :
  length (pd.group_keys (gender <$> t)) = size (gender_values t).
Proof.
  rewrite <- (size_list_to_set (C := gset string)) by apply group_keys_NoDup.
  f_equal. apply set_eq. intros g.
  by rewrite elem_of_list_to_set, group_keys_gender.
Qed.

(** The counts of a grouping by two keys add up to the rows that have a
    first key among [ks1] and a second key among [ks2]. *)
Lemma sum_counts2 {A : Type} (f1 f2 : A → option string)
    (ks1 ks2 : list string) (t : list A) :
  NoDup ks1 → NoDup ks2 →
  sum_list_with (λ k1, sum_list_with (λ k2,
      length (filter (λ r, f1 r = Some k1 ∧ f2 r = Some k2) t)) ks2) ks1
    = length (filter (λ r, f1 r ∈ Some <$> ks1 ∧ f2 r ∈ Some <$> ks2) t).
Proof.
  intros Hks1 Hks2.
  rewrite <- list_filter_filter, <- sum_counts by done.
  apply sum_list_with_ext. intros k1.
  rewrite list_filter_filter.
  rewrite (list_filter_iff _ (λ r, f2 r ∈ Some <$> ks2 ∧ f1 r = Some k1))
    by (intros r; tauto).
  rewrite <- list_filter_filter, <- sum_counts by done.
  apply sum_list_with_ext. intros k2.
  rewrite list_filter_filter. f_equal. apply list_filter_iff. intros r. tauto.
Qed.

(** ** Step 2, without the claims *)

(** X7. Step 2 has ten rows for every gender that occurs in the table: its
    number of rows is ten times the number of distinct genders. *)
Theorem activity_frequency_by_gender_length (t : DataFrame) :
  length (activity_frequency_by_gender t) = (10 * size (gender_values t))%nat.
Proof.
  unfold activity_frequency_by_gender.
  rewrite (length_product (λ a g, (a, g, _))), length_group_keys_gender.
  done.
Qed.

(** X8. The frequencies of step 2 add up to the number of rows that have
    both one of the ten activities and a gender; a row that lacks either is
    counted in no group. *)
Theorem activity_frequency_by_gender_total (t : DataFrame) :
  sum_list_with snd (activity_frequency_by_gender t)
    = length (filter (λ r, activity_type r ∈ Some <$> activity_order ∧
                           is_Some (gender r)) t).
Proof.
  unfold activity_frequency_by_gender.
  rewrite sum_list_with_bind.
  erewrite sum_list_with_ext; last first.
  { intros a. rewrite sum_list_with_bind. apply sum_list_with_ext.
    intros g. simpl. apply Nat.add_0_r. }
  rewrite sum_counts2 by (apply activity_order_NoDup || apply group_keys_NoDup).
  f_equal. apply filter_ext_in. intros r Hr.
  split.
  - intros [? (g & -> & _)%list_elem_of_fmap]. eauto.
  - intros [? [g Hg]]. split; [done|].
    apply list_elem_of_fmap. exists g. split; [done|].
    apply elem_of_group_keys, list_elem_of_fmap. eauto.
Qed.

(** ** Step 4 *)

(** X9. Step 4 has a row for an activity and an intensity exactly when the
    activity is one of the ten categories and some row of the table has
    both, with the number of these rows as its count: unlike step 2 it has
    no row with count 0. *)
Theorem activity_summary_rows (t : DataFrame) (a i : string) (n : nat) :
  (a, i, n) ∈ activity_summary t ↔
    a ∈ activity_order ∧
    n = length (filter (λ r, activity_type r = Some a ∧ intensity r = Some i) t) ∧
    (0 < n)%nat.
Proof.
  unfold activity_summary. rewrite list_elem_of_filter, list_elem_of_bind.
  simpl. split.
  - intros (Hn & a' & (i' & Hin & Hi)%list_elem_of_bind & Ha).
    apply list_elem_of_singleton in Hin. by simplify_eq.
  - intros (Ha & -> & Hn). split; [done|]. exists a. split; [|done].
    apply list_elem_of_bind. exists i. split; [by left|].
    apply elem_of_group_keys.
    destruct (filter _ t) as [|r l] eqn:Hf; [simpl in Hn; lia|].
    assert (r ∈ filter (λ r, activity_type r = Some a ∧ intensity r = Some i) t)
      as [[_ Hi] Hr]%list_elem_of_filter by (rewrite Hf; by left).
    apply list_elem_of_fmap. eauto.
Qed.

(** ** Step 3, without the claims *)

Lemma mean_Some_nonempty (col : list (option Q)) (m : Q) :
  pd.mean col = Some m → ∃ x, Some x ∈ col.
Proof.
  unfold pd.mean. destruct (omap id col) as [|x xs] eqn:Hcol; [done|].
  intros _. exists x.
  assert (x ∈ omap id col) as (v & Hv & Hid)%list_elem_of_omap
    by (rewrite Hcol; by left).
  simpl in Hid. by subst.
Qed.

Lemma mean_is_Some (col : list (option Q)) (x : Q) :
  Some x ∈ col → is_Some (pd.mean col).
Proof.
  intros Hx. unfold pd.mean.
  destruct (omap id col) as [|y ys] eqn:Hcol; [|by eexists].
  assert (x ∈ omap id col) as Hin by (apply list_elem_of_omap; eauto).
  rewrite Hcol in Hin. by apply elem_of_nil in Hin.
Qed.

Lemma activity_stats_activities (t : DataFrame) :
  st_activity_type <$> activity_stats t
    = filter (λ a, Some a ∈ activity_type <$> t) activity_order.
Proof.
  unfold activity_stats. rewrite <- list_fmap_compose. apply list_fmap_id.
Qed.

Lemma top_activities_Permutation (t : DataFrame) :
  top_activities t
    ≡ₚ filter (λ s, is_Some (avg_calories_burned s) ∧ is_Some (avg_duration s))
         (activity_stats t).
Proof. unfold top_activities. by rewrite sort_values_Permutation. Qed.

(** X10. Step 3 has the row of an activity with two means exactly when the
    activity is one of the ten categories and the two numbers are the means
    of the calories and of the durations of its rows; and it has no activity
    twice. *)
Theorem top_activities_rows (t : DataFrame) :
  NoDup (st_activity_type <$> top_activities t) ∧
  ∀ a c d, StatsRow a (Some c) (Some d) ∈ top_activities t ↔
    a ∈ activity_order ∧
    pd.mean (calories_burned <$> filter (λ r, activity_type r = Some a) t) = Some c ∧
    pd.mean (duration_minutes <$> filter (λ r, activity_type r = Some a) t) = Some d.
Proof.
  split.
  - rewrite top_activities_Permutation.
    apply (sublist_NoDup _ (st_activity_type <$> activity_stats t)).
    + rewrite activity_stats_activities.
      apply NoDup_filter, activity_order_NoDup.
    + apply fmap_sublist, sublist_filter.
  - intros a c d. rewrite top_activities_Permutation, list_elem_of_filter.
    unfold activity_stats. rewrite list_elem_of_fmap. simpl. split.
    + intros (_ & a' & [= -> Hc Hd] & [_ Ha]%list_elem_of_filter). done.
    + intros (Ha & Hc & Hd). split; [by eauto|].
      exists a. rewrite Hc, Hd. split; [done|].
      apply list_elem_of_filter. split; [|done].
      apply mean_Some_nonempty in Hc as (x & (r & _ & Hr)%list_elem_of_fmap).
      apply list_elem_of_filter in Hr as [<- Hr].
      by apply list_elem_of_fmap_2.
Qed.

(** X11. When every row of the table has its calories and its duration, step
    3 shows the same activities as step 1: no activity is dropped for a
    missing mean. *)
Theorem top_activities_same_as_frequency (t : DataFrame) :
  Forall (λ r, is_Some (calories_burned r) ∧ is_Some (duration_minutes r)) t →
  st_activity_type <$> top_activities t ≡ₚ (activity_frequency t).*1.
Proof.
  intros Hnum.
  rewrite top_activities_Permutation, activity_frequency_fst, filter_all.
  { by rewrite activity_stats_activities. }
  unfold activity_stats. apply Forall_fmap, Forall_forall.
  intros a [(r & Ha & Hr)%list_elem_of_fmap _]%list_elem_of_filter. simpl.
  rewrite Forall_forall in Hnum. destruct (Hnum r Hr) as [[c Hc] [d Hd]].
  assert (r ∈ filter (λ r, activity_type r = Some a) t) as Hg
    by by apply list_elem_of_filter.
  split.
  - apply (mean_is_Some _ c), list_elem_of_fmap. eauto.
  - apply (mean_is_Some _ d), list_elem_of_fmap. eauto.
Qed.

Lemma top_activities_same_as_frequency_witness :
  st_activity_type <$> top_activities (example_table None None None)
    ≡ₚ (activity_frequency (example_table None None None)).*1.
Proof.
  apply top_activities_same_as_frequency.
  repeat constructor; by eexists.
Defined.







(** ** Step 6, without the claims *)

Lemma unique_app (l m : list string) :
  pd.unique (l ++ m) = pd.unique l ++ filter (λ x, x ∉ l) (pd.unique m).
Proof.
  induction l as [|x l IH].
  - simpl. symmetry. apply filter_all, Forall_forall.
    intros y _ Hy. by apply elem_of_nil in Hy.
  - cbn [app pd.unique]. rewrite IH, filter_app, list_filter_filter.
    do 2 f_equal. apply list_filter_iff. intros y.
    rewrite elem_of_cons. tauto.
Qed.

Lemma unique_NoDup (l : list string) : NoDup l → pd.unique l = l.
Proof.
  induction 1 as [|x l Hx _ IH]; [done|].
  cbn [pd.unique]. rewrite IH. f_equal.
  apply filter_all, Forall_forall. by intros y Hy ->.
Qed.

Lemma unique_constant (l : list string) (a : string) :
  l ≠ [] → Forall (λ x, x = a) l → pd.unique l = [a].
Proof.
  intros Hne Hl. destruct Hl as [|x l -> Hl]; [done|].
  cbn [pd.unique]. f_equal. apply filter_none, Forall_forall.
  intros y Hy Hya. rewrite elem_of_unique in Hy.
  rewrite Forall_forall in Hl. by apply Hya, Hl.
Qed.

Section product.
Context {B C : Type} (mk : string → B → C) (cats : list string) (keys : list B).

Lemma elem_of_product (x : C) :
  x ∈ (a ← cats; b ← keys; [mk a b]) ↔ ∃ a b, a ∈ cats ∧ b ∈ keys ∧ x = mk a b.
Proof.
  rewrite list_elem_of_bind. split.
  - intros (a & (b & Hx & Hb)%list_elem_of_bind & Ha).
    apply list_elem_of_singleton in Hx. eauto.
  - intros (a & b & Ha & Hb & ->). exists a. split; [|done].
    apply list_elem_of_bind. exists b. split; [by left|done].
Qed.

Lemma unique_product_1 (f : C → string) :
  (∀ a b, f (mk a b) = a) → NoDup cats → keys ≠ [] →
  pd.unique (f <$> (a ← cats; b ← keys; [mk a b])) = cats.
Proof.
  intros Hf Hcats Hkeys. induction Hcats as [|a cats' Ha _ IH]; [done|].
  rewrite bind_cons, fmap_app, unique_app, IH.
  assert (Forall (λ x, x = a) (f <$> (b ← keys; [mk a b]))) as Hall.
  { apply Forall_fmap, Forall_forall.
    intros x (b & ->%list_elem_of_singleton & _)%list_elem_of_bind. apply Hf. }
  rewrite (unique_constant _ a); [| |done].
  - simpl. f_equal. apply filter_all, Forall_forall. intros y Hy Hin.
    rewrite Forall_forall in Hall. by rewrite (Hall y Hin) in Hy.
  - destruct keys as [|b keys']; [done|]. by rewrite bind_cons.
Qed.

End product.

Lemma unique_product_2 {C : Type} (mk : string → string → C)
    (cats keys : list string) (f : C → string) :
  (∀ a b, f (mk a b) = b) → NoDup keys → cats ≠ [] →
  pd.unique (f <$> (a ← cats; b ← keys; [mk a b])) = keys.
Proof.
  intros Hf Hkeys Hcats. destruct cats as [|a cats']; [done|].
  assert (∀ a, f <$> (b ← keys; [mk a b]) = keys) as Hrow.
  { intros a'. clear Hkeys. induction keys as [|b keys' IH]; [done|].
    rewrite bind_cons, fmap_app, IH. simpl. by rewrite Hf. }
  rewrite bind_cons, fmap_app, Hrow, unique_app, unique_NoDup by done.
  rewrite filter_none; [by rewrite app_nil_r|].
  apply Forall_forall. intros y Hy Hnin. apply Hnin.
  rewrite elem_of_unique in Hy.
  apply list_elem_of_fmap in Hy as (x & -> & Hx).
  apply elem_of_product in Hx as (a' & b & _ & Hb & ->). by rewrite Hf.
Qed.

(** X13. The nodes of step 6: the gender labels are the genders of the rows
    with the chosen intensity, in increasing order; as soon as there is one,
    the activity labels are all ten categories in their fixed order, also
    those that no row with this intensity has; and there are ten links for
    every gender label. *)
Theorem sankey_labels (t : DataFrame) (level : string) :
  let sd := sankey_data t level in
  let keys := pd.group_keys (gender <$> filtered_sankey_data t level) in
  gender_labels sd = keys ∧
  activity_labels sd = (if decide (keys = []) then [] else activity_order) ∧
  length (sankey_links sd) = (10 * length keys)%nat.
Proof.
  intros sd keys. unfold gender_labels, activity_labels, sankey_links.
  subst sd. unfold sankey_data. fold keys.
  rewrite length_fmap, (length_product (λ a g, SankeyRow a g _)).
  split_and!; [| |done].
  - apply (unique_product_2 (λ a g, SankeyRow a g _)); [done| |done].
    apply group_keys_NoDup.
  - destruct (decide (keys = [])) as [->|Hne]; [done|].
    apply (unique_product_1 (λ a g, SankeyRow a g _)); [done| |done].
    apply activity_order_NoDup.
Qed.

(** A label of the list is mapped to a position that holds it, whether the
    list repeats labels or not. *)
Lemma label_indices_round_trip (l : list string) (x : string) :
  x ∈ l → ∃ i, label_indices l !! x = Some i ∧ l !! i = Some x.
Proof.
  induction l as [|y l IH] using rev_ind; [by intros ?%elem_of_nil|].
  rewrite label_indices_snoc. intros Hx.
  destruct (decide (x = y)) as [->|Hne].
  - exists (length l). split; [apply lookup_insert_eq|].
    by rewrite list_lookup_middle.
  - apply elem_of_app in Hx as [Hx|Hx%list_elem_of_singleton]; [|done].
    destruct (IH Hx) as (i & Hi & Hl). exists i.
    split; [by rewrite lookup_insert_ne|].
    rewrite lookup_app_l; [done|]. by eapply lookup_lt_Some.
Qed.

(** X14. Every link of step 6 points to the nodes of its row: the label at
    its source index is the activity of the row and the label at its target
    index is the gender of the row, for every table. *)
Theorem sankey_links_resolve (t : DataFrame) (level : string) :
  let sd := sankey_data t level in
  (λ l, (source_index l ≫= (all_labels sd !!.),
         target_index l ≫= (all_labels sd !!.))) <$> sankey_links sd
    = (λ r, (Some (sk_activity_type r), Some (sk_gender r))) <$> sd.
Proof.
  intros sd. unfold sankey_links. rewrite <- list_fmap_compose.
  apply list_fmap_ext. intros i r Hr%list_elem_of_lookup_2. simpl.
  assert (sk_activity_type r ∈ all_labels sd) as Ha.
  { apply elem_of_app. left. apply elem_of_unique, list_elem_of_fmap. eauto. }
  assert (sk_gender r ∈ all_labels sd) as Hg.
  { apply elem_of_app. right. apply elem_of_unique, list_elem_of_fmap. eauto. }
  apply label_indices_round_trip in Ha as (ia & -> & Hia).
  apply label_indices_round_trip in Hg as (ig & -> & Hig).
  simpl. by rewrite Hia, Hig.
Qed.

Lemma mean_None (col : list (option Q)) :
  pd.mean col = None ↔ Forall (λ v, v = None) col.
Proof.
  split.
  - intros Hm. apply Forall_forall. intros [x|] Hx; [|done].
    destruct (mean_is_Some col x Hx) as [m Hm']. congruence.
  - intros Hcol. destruct (pd.mean col) as [m|] eqn:Hm; [|done].
    apply mean_Some_nonempty in Hm as [x Hx].
    rewrite Forall_forall in Hcol. by specialize (Hcol _ Hx).
Qed.

Lemma filter_filter_3 (P Q R : row → Prop)
    `{!∀ r, Decision (P r), !∀ r, Decision (Q r), !∀ r, Decision (R r)}
    (t : DataFrame) :
  filter (λ r, Q r ∧ R r) (filter P t) = filter (λ r, P r ∧ Q r ∧ R r) t.
Proof. rewrite list_filter_filter. apply list_filter_iff. intros r. tauto. Qed.

Lemma elem_of_sankey_data_iff (t : DataFrame) (level a g : string) (w : option Q) :
  SankeyRow a g w ∈ sankey_data t level ↔
    a ∈ activity_order ∧
    (∃ r, r ∈ t ∧ intensity r = Some level ∧ gender r = Some g) ∧
    w = pd.mean (calories_burned <$>
          filter (λ r, intensity r = Some level ∧ activity_type r = Some a ∧
                       gender r = Some g) t).
Proof.
  unfold sankey_data, filtered_sankey_data.
  rewrite (elem_of_product (λ a g, SankeyRow a g _)).
  setoid_rewrite elem_of_group_keys. setoid_rewrite list_elem_of_fmap.
  setoid_rewrite list_elem_of_filter. setoid_rewrite filter_filter_3.
  split.
  - intros (a' & g' & Ha & (r & Hg & Hl & Hr) & [= -> -> ->]). eauto 10.
  - intros (Ha & (r & Hr & Hl & Hg) & ->). exists a, g. eauto 10.
Qed.

(** X15. Step 6 has a row for an activity and a gender exactly when the
    activity is one of the ten categories and some row with the chosen
    intensity has that gender; its weight is the mean of the calories of the
    rows with that intensity, activity and gender. *)
Theorem sankey_data_rows (t : DataFrame) (level a g : string) (w : option Q) :
  SankeyRow a g w ∈ sankey_data t level ↔
    a ∈ activity_order ∧
    (∃ r, r ∈ t ∧ intensity r = Some level ∧ gender r = Some g) ∧
    w = pd.mean (calories_burned <$>
          filter (λ r, intensity r = Some level ∧ activity_type r = Some a ∧
                       gender r = Some g) t).
Proof. apply elem_of_sankey_data_iff. Qed.

(** X16. Step 6 hands the chart a link without weight exactly for an
    activity of the ten and a gender of the chosen intensity such that no
    row with this intensity, activity and gender has its calories; in
    particular for every activity that the gender does not practise at this
    intensity. *)
Theorem sankey_link_without_weight (t : DataFrame) (level a g : string) :
  SankeyRow a g None ∈ sankey_data t level ↔
    a ∈ activity_order ∧
    (∃ r, r ∈ t ∧ intensity r = Some level ∧ gender r = Some g) ∧
    Forall (λ r, intensity r = Some level ∧ activity_type r = Some a ∧
                 gender r = Some g → calories_burned r = None) t.
Proof.
  rewrite elem_of_sankey_data_iff.
  assert (None = pd.mean (calories_burned <$>
            filter (λ r, intensity r = Some level ∧ activity_type r = Some a ∧
                         gender r = Some g) t)
          ↔ Forall (λ r, intensity r = Some level ∧ activity_type r = Some a ∧
                         gender r = Some g → calories_burned r = None) t) as Hw.
  { split.
    - intros Hm. symmetry in Hm. rewrite mean_None, Forall_fmap in Hm.
      apply Forall_forall. intros r Hr Hkeys.
      rewrite Forall_forall in Hm. apply (Hm r). by apply list_elem_of_filter.
    - intros Hall. symmetry. apply mean_None, Forall_fmap, Forall_forall.
      intros r [Hkeys Hr]%list_elem_of_filter.
      rewrite Forall_forall in Hall. by apply (Hall r). }
  by rewrite Hw.
Qed.

(** ** Step 7 *)

Lemma omap_id_fmap {A B : Type} (f : A → option B) (l : list A) :
  omap id (f <$> l) = omap f l.
Proof.
  induction l as [|x l IH]; [done|].
  rewrite fmap_cons. cbn [omap list_omap]. rewrite <- IH.
  by destruct (f x).
Qed.

Lemma length_group_keys (col : list (option string)) :
  length (pd.group_keys col) = size (list_to_set (omap id col) : gset string).
Proof.
  rewrite <- (size_list_to_set (C := gset string) (pd.group_keys col))
    by apply group_keys_NoDup.
  f_equal. apply set_eq. intros g.
  rewrite !elem_of_list_to_set, elem_of_group_keys, list_elem_of_omap.
  split; [by eauto|]. intros (v & Hv & Hid). simpl in Hid. by subst.
Qed.

(** X17. Step 7 has ten rows for every age category of the rows with the
    chosen intensity, one per activity category; the mean of a row is taken
    over the rows with that intensity, age category and activity. *)
Theorem age_activity_stats_rows (t : DataFrame) (level : string) :
  length (age_activity_stats t level)
    = (10 * size (list_to_set
         (omap age_category (filter (λ r, intensity r = Some level) t))
         : gset string))%nat ∧
  ∀ c a m, (c, a, m) ∈ age_activity_stats t level ↔
    a ∈ activity_order ∧
    (∃ r, r ∈ t ∧ intensity r = Some level ∧ age_category r = Some c) ∧
    m = pd.mean (calories_burned <$>
          filter (λ r, intensity r = Some level ∧ age_category r = Some c ∧
                       activity_type r = Some a) t).
Proof.
  unfold age_activity_stats. split.
  - rewrite (length_product (λ c a, (c, a, _))), length_group_keys.
    rewrite Nat.mul_comm. do 3 f_equal. apply omap_id_fmap.
  - intros c a m. rewrite (elem_of_product (λ c a, (c, a, _))).
    setoid_rewrite elem_of_group_keys. setoid_rewrite list_elem_of_fmap.
    setoid_rewrite list_elem_of_filter. setoid_rewrite filter_filter_3.
    split.
    + intros (c' & a' & (r & Hc & Hl & Hr) & Ha & [= -> -> ->]). eauto 10.
    + intros (Ha & (r & Hr & Hl & Hc) & ->). exists c, a. eauto 10.
Qed.

(** ** The order of the categories *)

Lemma code_lookup (cats : list string) (i : nat) (a : string) :
  NoDup cats → cats !! i = Some a → pd.code cats a = i.
Proof.
  intros Hcats. revert i. induction Hcats as [|c cats Hc _ IH]; intros i Hi.
  - done.
  - destruct i as [|i]; simpl in *.
    + simplify_eq. by rewrite decide_True.
    + rewrite decide_False, (IH i) by (try done; intros ->;
        by apply Hc, list_elem_of_lookup_2 with i).
      done.
Qed.

(** X18. The order by which step 5 sorts is the order of the list
    [activity_order]: a row whose activity is the i-th category may stand
    before a row whose activity is the j-th exactly when i is at most j. *)
Theorem by_activity_type_positions (x y : row) (i j : nat) (a b : string) :
  activity_order !! i = Some a → activity_order !! j = Some b →
  activity_type x = Some a → activity_type y = Some b →
  by_activity_type x y = bool_decide (i ≤ j)%nat.
Proof.
  intros Hi Hj Hx Hy. unfold by_activity_type. rewrite Hx, Hy.
  change (pd.nat_ascending (pd.code activity_order a) (pd.code activity_order b)
            = bool_decide (i ≤ j)%nat).
  unfold pd.nat_ascending.
  by rewrite (code_lookup _ i a), (code_lookup _ j b)
    by (done || apply activity_order_NoDup).
Qed.

Lemma by_activity_type_positions_witness :
  by_activity_type
    (Row (Some "Yoga") (Some "Female") (Some "Low") None (Some 40%Q) (Some 150%Q))
    (Row (Some "Cycling") (Some "Male") (Some "Low") None (Some 30%Q) (Some 200%Q))
  = bool_decide (3 ≤ 1)%nat.
Proof. by apply (by_activity_type_positions _ _ 3 1 "Yoga" "Cycling"). Defined.
